(** * Traffic backend: ingest, aggregate, fan-out

    A shallow embedding of the Go backend (src/backend/redis.go,
    src/backend/websocket.go, src/backend/types.go, src/backend/config.go)
    together with the properties of its ingest -> aggregate -> fan-out
    pipeline.

    Conventions of the embedding.
    - Go's [int] is the 64-bit signed integer of the deployment platform
      (linux/amd64): a [Z] in the range [int_min .. int_max], with the
      wrap-around of [+=] written out ([int_add]).
    - A slice is its sequence of elements (a [list]); the nil slice and the
      empty slice are both the empty sequence.
    - A value of type [interface{}] is a [value]; a [float64] obtained from a
      JSON number is kept as the literal it was read from ([number]).
    - The shared variables [latest], [clients] and [broadcast] are the fields
      of an explicit state; a critical section is one atomic transition.
    - Library calls whose result depends on the outside world (Redis replies,
      WebSocket writes) take their result from an explicit reply record or
      oracle. *)

From Stdlib Require Import Ascii String.
From stdpp Require Import base numbers option list strings gmap.

Set Warnings "-register-all,-clear-no-such-hyp".

(** ** Go's [int] *)

Module GoInt.
Local Open Scope Z_scope.

Definition int_bits : Z := 64.
Definition int_min : Z := - 2 ^ (int_bits - 1).
Definition int_max : Z := 2 ^ (int_bits - 1) - 1.

(** The values an [int] variable can hold. *)
Definition is_int (z : Z) : Prop := int_min ≤ z ≤ int_max.

Definition is_intb (z : Z) : bool := (int_min <=? z) && (z <=? int_max).

(** Two's-complement reduction of a mathematical integer to [int]. *)
Definition wrap (z : Z) : Z := (z - int_min) mod 2 ^ int_bits + int_min.

(** [a + b] on [int]: Go defines signed overflow to wrap around. *)
Definition int_add (a b : Z) : Z := wrap (a + b).

(** [len(s)] for a slice [s]. *)
Definition len {A} (s : list A) : Z := Z.of_nat (length s).
End GoInt.
Export GoInt.

(** ** Dynamic values ([interface{}]) *)

(** A JSON number literal, cut into its parts: sign, integer digits,
    fraction digits (empty when there is no fraction), and the exponent's
    sign and digits. *)
Record number : Type := mkNumber {
  num_neg : bool;
  num_int : string;
  num_frac : string;
  num_exp : option (bool * string);
}.

(** The dynamic values that reach [Packets]: what [encoding/json] stores in
    an [interface{}] (nil, bool, float64, string, [[]interface{}],
    [map[string]interface{}]) and the [map[string]interface{}] that
    [initializeLatestData] builds for each document. *)
Inductive value : Type :=
  | VNil
  | VBool (b : bool)
  | VFloat64 (lit : number)
  | VString (s : string)
  | VSlice (l : list value)
  | VMap (m : gmap string value).

(** ** types.go *)

(** [trafficMessage] represents incoming messages from Redis. *)
Module trafficMessage.
Record t : Type := mk {
  PacketCount : Z;
  Timestamp : Z;
  Packets : list value;
}.

(** The zero value of the struct, [var payload trafficMessage]. *)
Definition zero : t := mk 0 0 [].
End trafficMessage.

(** [latestData] holds the accumulated latest data. *)
Module latestData.
Record t : Type := mk {
  Timestamp : Z;
  PacketCount : Z;
  Packets : list value;
}.
End latestData.

(** ** redis.go: the update of [latest] *)

(** [initializeEmptyLatest]: the value stored into [latest]. *)
Definition emptyLatest : latestData.t :=
  {| latestData.Timestamp := 0;
     latestData.PacketCount := 0;
     latestData.Packets := [] |}.

(** The critical section of [startRedisSubscriber] (between [latestMu.Lock]
    and [latestMu.Unlock]): same timestamp accumulates, a different one
    replaces. *)
Definition updateLatest (latest : latestData.t) (payload : trafficMessage.t)
    : latestData.t :=
  if decide (trafficMessage.Timestamp payload = latestData.Timestamp latest)
  then
    {| latestData.Timestamp := latestData.Timestamp latest;
       latestData.PacketCount :=
         int_add (latestData.PacketCount latest)
                 (trafficMessage.PacketCount payload);
       latestData.Packets :=
         latestData.Packets latest ++ trafficMessage.Packets payload |}
  else
    {| latestData.Timestamp := trafficMessage.Timestamp payload;
       latestData.PacketCount := trafficMessage.PacketCount payload;
       latestData.Packets := trafficMessage.Packets payload |}.

(** The snapshot made of a message's three fields, as the replace branch
    builds it. *)
Definition snapshotOf (payload : trafficMessage.t) : latestData.t :=
  {| latestData.Timestamp := trafficMessage.Timestamp payload;
     latestData.PacketCount := trafficMessage.PacketCount payload;
     latestData.Packets := trafficMessage.Packets payload |}.

(** The fields of type [int] hold values of [int]. *)
Definition validMessage (m : trafficMessage.t) : Prop :=
  is_int (trafficMessage.PacketCount m) ∧ is_int (trafficMessage.Timestamp m).

Definition validLatest (s : latestData.t) : Prop :=
  is_int (latestData.PacketCount s) ∧ is_int (latestData.Timestamp s).

(** [eventCount] agrees with the number of stored events. *)
Definition countConsistent (s : latestData.t) : Prop :=
  latestData.PacketCount s = len (latestData.Packets s).

Definition msgConsistent (m : trafficMessage.t) : Prop :=
  trafficMessage.PacketCount m = len (trafficMessage.Packets m).

(** ** encoding/json: [json.Unmarshal] into a [trafficMessage] *)

(** The decoder of the standard library, as far as a [trafficMessage] can
    observe it: the JSON grammar of its scanner (RFC 8259, nesting limited to
    10000), the unquoting of string literals, and the rules for storing a
    JSON value into the struct's three fields. *)
Module Json.
Local Open Scope Z_scope.

Inductive json : Type :=
  | JNull
  | JBool (b : bool)
  | JNumber (n : number)
  | JString (s : string)
  | JArray (l : list json)
  | JObject (kv : list (string * json)).

Definition code (c : ascii) : Z := Z.of_N (N_of_ascii c).
Definition chr (z : Z) : ascii := ascii_of_N (Z.to_N z).

Definition between (lo hi : Z) (c : ascii) : bool :=
  ((lo <=? code c) && (code c <=? hi))%Z.

Definition isDigit : ascii → bool := between 48 57.
Definition isHex (c : ascii) : bool :=
  isDigit c || between 97 102 c || between 65 70 c.

(** [isSpace] of the scanner: space, tab, carriage return, line feed. *)
Definition isSpace (c : ascii) : bool :=
  bool_decide (code c = 32 ∨ code c = 9 ∨ code c = 13 ∨ code c = 10)%Z.

Fixpoint skipSpace (s : string) : string :=
  match s with
  | String c r => if isSpace c then skipSpace r else s
  | EmptyString => s
  end.

Fixpoint takeDigits (s : string) : string * string :=
  match s with
  | String c r =>
      if isDigit c then let '(ds, r') := takeDigits r in (String c ds, r')
      else (EmptyString, s)
  | EmptyString => (EmptyString, s)
  end.

(** The rest of [s] after its first byte, when that byte is [c]. *)
Definition after (c : ascii) (s : string) : option string :=
  match s with
  | String c' r => if bool_decide (c' = c) then Some r else None
  | EmptyString => None
  end.

(** The rest of [s] after the prefix [p], when [s] starts with [p]. *)
Fixpoint afterPrefix (p s : string) : option string :=
  match p with
  | EmptyString => Some s
  | String c p' => r ← after c s; afterPrefix p' r
  end.

(** A number literal: an optional minus sign; 0, or a nonzero digit and
    more digits; optionally a dot and one or more digits; optionally e or
    E, a sign, and one or more digits. *)
Definition scanNumber (s : string) : option (number * string) :=
  let '(neg, s) :=
    if after "-" s is Some r then (true, r) else (false, s) in
  '(ip, s) ← match s with
             | String c r =>
                 if bool_decide (c = "0"%char) then Some ("0"%string, r)
                 else if isDigit c
                      then let '(ds, r') := takeDigits r in Some (String c ds, r')
                      else None
             | EmptyString => None
             end;
  '(fp, s) ← (if after "." s is Some r then
                let '(ds, r') := takeDigits r in
                if bool_decide (ds = EmptyString) then None else Some (ds, r')
              else Some (EmptyString, s));
  '(ex, s) ← (if (if after "e" s is Some r then Some r else after "E" s) is Some r
              then
                let '(eneg, r) :=
                  if after "-" r is Some r' then (true, r')
                  else if after "+" r is Some r' then (false, r')
                  else (false, r) in
                let '(ds, r') := takeDigits r in
                if bool_decide (ds = EmptyString) then None
                else Some (Some (eneg, ds), r')
              else Some (None, s));
  Some (mkNumber neg ip fp ex, s).

Definition isSimpleEscape (e : ascii) : bool :=
  bool_decide (e ∈ ["034"; "\"; "/"; "b"; "f"; "n"; "r"; "t"]%char).

(** The body of a string literal, after its opening quote: the raw bytes up
    to the closing quote, and the rest of the input.  Control characters
    and malformed escapes are syntax errors. *)
Fixpoint scanString (s : string) : option (string * string) :=
  match s with
  | EmptyString => None
  | String c r =>
      if bool_decide (c = "034"%char) then Some (EmptyString, r)
      else if bool_decide (c = "\"%char) then
        match r with
        | String e r' =>
            if isSimpleEscape e then
              '(b, rest) ← scanString r'; Some (String c (String e b), rest)
            else if bool_decide (e = "u"%char) then
              match r' with
              | String h1 (String h2 (String h3 (String h4 r''))) =>
                  if isHex h1 && isHex h2 && isHex h3 && isHex h4 then
                    '(b, rest) ← scanString r'';
                    Some (String c (String e (String h1 (String h2
                            (String h3 (String h4 b))))), rest)
                  else None
              | _ => None
              end
            else None
        | EmptyString => None
        end
      else if (code c <? 32)%Z then None
      else '(b, rest) ← scanString r; Some (String c b, rest)
  end.

Definition hexVal (c : ascii) : Z :=
  if isDigit c then code c - 48
  else if between 97 102 c then code c - 87
  else code c - 55.

(** [getu4]: the code unit of a [\uXXXX] escape at the head of [s]. *)
Definition getu4 (s : string) : option Z :=
  match s with
  | String "\" (String "u" (String h1 (String h2 (String h3 (String h4 _))))) =>
      if isHex h1 && isHex h2 && isHex h3 && isHex h4
      then Some (((hexVal h1 * 16 + hexVal h2) * 16 + hexVal h3) * 16 + hexVal h4)%Z
      else None
  | _ => None
  end.

(** [utf8.EncodeRune] for a valid scalar value. *)
Definition encodeRune (r : Z) : string :=
  (if r <? 128 then String (chr r) EmptyString
   else if r <? 2048 then
     String (chr (192 + r / 64)) (String (chr (128 + r mod 64)) EmptyString)
   else if r <? 65536 then
     String (chr (224 + r / 4096))
       (String (chr (128 + (r / 64) mod 64))
          (String (chr (128 + r mod 64)) EmptyString))
   else
     String (chr (240 + r / 262144))
       (String (chr (128 + (r / 4096) mod 64))
          (String (chr (128 + (r / 64) mod 64))
             (String (chr (128 + r mod 64)) EmptyString))))%Z.

Definition replacementChar : Z := 65533.

Definition isCont : ascii → bool := between 128 191.

(** How many continuation bytes follow the lead byte [c] in a well-formed
    UTF-8 sequence at the head of [String c r]; 0 when the sequence is
    malformed ([utf8.DecodeRune] then yields RuneError of width 1). *)
Definition utf8Tail (c : ascii) (r : string) : nat :=
  let second lo hi :=
    match r with String c1 _ => between lo hi c1 | EmptyString => false end in
  let conts (n : nat) :=
    match n, r with
    | 1%nat, String _ _ => true
    | 2%nat, String _ (String c2 _) => isCont c2
    | 3%nat, String _ (String c2 (String c3 _)) => isCont c2 && isCont c3
    | _, _ => false
    end in
  let seq (n : nat) lo hi := if second lo hi && conts n then n else 0%nat in
  if between 194 223 c then seq 1%nat 128 191
  else if bool_decide (code c = 224) then seq 2%nat 160 191
  else if bool_decide (code c = 237) then seq 2%nat 128 159
  else if between 225 239 c then seq 2%nat 128 191
  else if bool_decide (code c = 240) then seq 3%nat 144 191
  else if between 241 243 c then seq 3%nat 128 191
  else if bool_decide (code c = 244) then seq 3%nat 128 143
  else 0%nat.

(** [unquote]: the Go string denoted by the raw body of a literal.
    [copy] bytes are still to be copied verbatim (the tail of a checked
    UTF-8 sequence), [drop] bytes are still to be dropped (the tail of an
    escape already translated). *)
Fixpoint unquote (copy drop : nat) (s : string) : string :=
  match s with
  | EmptyString => EmptyString
  | String c r =>
      match drop, copy with
      | S k, _ => unquote copy k r
      | O, S p => String c (unquote p O r)
      | O, O =>
          if bool_decide (c = "\"%char) then
            match r with
            | String "u" _ =>
                match getu4 s with
                | Some rr =>
                    if ((55296 <=? rr) && (rr <? 57344))%Z then
                      match getu4 (String.substring 6%nat 6%nat s) with
                      | Some rr1 =>
                          if ((rr <? 56320) && (56320 <=? rr1) && (rr1 <? 57344))%Z
                          then encodeRune
                                 ((rr - 55296) * 1024 + (rr1 - 56320) + 65536)%Z
                               +:+ unquote O 11%nat r
                          else encodeRune replacementChar +:+ unquote O 5%nat r
                      | None => encodeRune replacementChar +:+ unquote O 5%nat r
                      end
                    else encodeRune rr +:+ unquote O 5%nat r
                | None => String c (unquote O O r)
                end
            | String e _ =>
                let d :=
                  if bool_decide (e = "b"%char) then chr 8
                  else if bool_decide (e = "f"%char) then chr 12
                  else if bool_decide (e = "n"%char) then chr 10
                  else if bool_decide (e = "r"%char) then chr 13
                  else if bool_decide (e = "t"%char) then chr 9
                  else e in
                String d (unquote O 1%nat r)
            | EmptyString => String c EmptyString
            end
          else if (code c <? 128)%Z then String c (unquote O O r)
          else
            match utf8Tail c r with
            | O => encodeRune replacementChar +:+ unquote O O r
            | S n => String c (unquote (S n) O r)
            end
      end
  end.


Definition maxNestingDepth : Z := 10000.

(** The scanner, by recursive descent.  [fuel] bounds the recursion: a
    value that is scanned takes no more fuel than it has bytes
    ([scanValue_fuel] below).  [depth] is the number of enclosing arrays and
    objects. *)
Fixpoint scanValue (fuel : nat) (depth : Z) (s : string) {struct fuel}
    : option (json * string) :=
  match fuel with
  | O => None
  | S fuel =>
      if afterPrefix "null" s is Some r then Some (JNull, r)
      else if afterPrefix "true" s is Some r then Some (JBool true, r)
      else if afterPrefix "false" s is Some r then Some (JBool false, r)
      else if after "034" s is Some r then
        '(b, r') ← scanString r; Some (JString (unquote O O b), r')
      else if after "[" s is Some r then
        if maxNestingDepth <? depth + 1 then None
        else if after "]" (skipSpace r) is Some r' then Some (JArray [], r')
        else '(l, r') ← scanElements fuel (depth + 1) (skipSpace r);
             Some (JArray l, r')
      else if after "{" s is Some r then
        if maxNestingDepth <? depth + 1 then None
        else if after "}" (skipSpace r) is Some r' then Some (JObject [], r')
        else '(kv, r') ← scanMembers fuel (depth + 1) (skipSpace r);
             Some (JObject kv, r')
      else '(n, r) ← scanNumber s; Some (JNumber n, r)
  end
with scanElements (fuel : nat) (depth : Z) (s : string) {struct fuel}
    : option (list json * string) :=
  match fuel with
  | O => None
  | S fuel =>
      '(v, r) ← scanValue fuel depth s;
      if after "," (skipSpace r) is Some r' then
        '(l, r'') ← scanElements fuel depth (skipSpace r'); Some (v :: l, r'')
      else if after "]" (skipSpace r) is Some r' then Some ([v], r')
      else None
  end
with scanMembers (fuel : nat) (depth : Z) (s : string) {struct fuel}
    : option (list (string * json) * string) :=
  match fuel with
  | O => None
  | S fuel =>
      r ← after "034" s;
      '(b, r) ← scanString r;
      r ← after ":" (skipSpace r);
      '(v, r) ← scanValue fuel depth (skipSpace r);
      if after "," (skipSpace r) is Some r' then
        '(kv, r'') ← scanMembers fuel depth (skipSpace r');
        Some ((unquote O O b, v) :: kv, r'')
      else if after "}" (skipSpace r) is Some r' then
        Some ([(unquote O O b, v)], r')
      else None
  end.

(** What a successful scan tells: the rest is shorter than the input, and
    any fuel that covers the bytes consumed gives the same result. *)
Definition scanned {A} (scanner : nat → Z → string → option (A * string))
    (fuel : nat) : Prop :=
  ∀ d s a r,
    scanner fuel d s = Some (a, r) →
    (String.length r < String.length s)%nat
    ∧ ∀ fuel', (String.length s - String.length r ≤ fuel')%nat →
               scanner fuel' d s = Some (a, r).

(** [checkValid] and the scan of the whole input: one value, with white
    space around it and nothing else. *)
Definition scan (data : string) : option json :=
  '(j, r) ← scanValue (S (String.length data)) 0 (skipSpace data);
  if bool_decide (skipSpace r = EmptyString) then Some j else None.

(** The value of a string of decimal digits. *)
Definition digitsValue (ds : string) : Z :=
  foldl (λ acc c, acc * 10 + (code c - 48)) 0 (list_ascii_of_string ds).

(** [strconv.ParseInt(lit, 10, 64)] on a number literal: an error when the
    literal has a fraction or an exponent, or is out of range. *)
Definition parseInt (n : number) : option Z :=
  if bool_decide (num_frac n = EmptyString ∧ num_exp n = None) then
    let v := if num_neg n then - digitsValue (num_int n)
             else digitsValue (num_int n) in
    if is_intb v then Some v else None
  else None.

(** [strconv.ParseFloat(lit, 64)] fails exactly when the literal rounds to
    an infinity: its magnitude is at least [2^1024 - 2^970]. *)
Definition float64Overflows (n : number) : bool :=
  let m := digitsValue (num_int n +:+ num_frac n) in
  let e := match num_exp n with
           | Some (true, ds) => - digitsValue ds
           | Some (false, ds) => digitsValue ds
           | None => 0
           end - Z.of_nat (String.length (num_frac n)) in
  let limit := 2 ^ 1024 - 2 ^ 970 in
  if bool_decide (m = 0) then false
  else if 0 <=? e then limit <=? m * 10 ^ e
  else limit * 10 ^ (- e) <=? m.

(** [valueInterface]: a JSON value stored into an [interface{}].  [None]
    is an [UnmarshalTypeError] (a number that does not fit a float64).
    In a [map[string]interface{}] a repeated key keeps its last value. *)
Fixpoint toValue (j : json) : option value :=
  match j with
  | JNull => Some VNil
  | JBool b => Some (VBool b)
  | JNumber n => if float64Overflows n then None else Some (VFloat64 n)
  | JString s => Some (VString s)
  | JArray l =>
      VSlice <$>
        (fix elements (l : list json) : option (list value) :=
           match l with
           | [] => Some []
           | j :: l => v ← toValue j; vs ← elements l; Some (v :: vs)
           end) l
  | JObject kv =>
      VMap <$>
        (fix members (kv : list (string * json)) (m : gmap string value)
             : option (gmap string value) :=
           match kv with
           | [] => Some m
           | (k, j) :: kv => v ← toValue j; members kv (<[k := v]> m)
           end) kv ∅
  end.

(** The folded form of a key, for the case-insensitive match of field
    names: ASCII letters in upper case; the long s (U+017F) and the Kelvin
    sign (U+212A), which fold to [S] and [K], replaced by them. *)
Fixpoint foldName (s : string) : string :=
  match s with
  | EmptyString => EmptyString
  | String c r =>
      if between 97 122 c then String (chr (code c - 32)) (foldName r)
      else
        match r with
        | String c1 r1 =>
            if bool_decide (code c = 197 ∧ code c1 = 191)
            then String "S" (foldName r1)
            else
              match r1 with
              | String c2 r2 =>
                  if bool_decide (code c = 226 ∧ code c1 = 132 ∧ code c2 = 170)
                  then String "K" (foldName r2)
                  else String c (foldName r)
              | EmptyString => String c (foldName r)
              end
        | EmptyString => String c EmptyString
        end
  end.

Inductive field : Type := FPacketCount | FTimestamp | FPackets.

(** The struct field a key selects, by its [json:] tag. *)
Definition findField (key : string) : option field :=
  let k := foldName key in
  if bool_decide (k = "PACKET_COUNT"%string) then Some FPacketCount
  else if bool_decide (k = "TIMESTAMP"%string) then Some FTimestamp
  else if bool_decide (k = "PACKETS"%string) then Some FPackets
  else None.

(** A JSON value stored into an [int] field: [null] leaves it as it is. *)
Definition storeInt (j : json) (old : Z) : option Z :=
  match j with
  | JNull => Some old
  | JNumber n => parseInt n
  | _ => None
  end.

(** A JSON value stored into a [[]interface{}] field. *)
Definition storeSlice (j : json) : option (list value) :=
  match j with
  | JNull => Some []
  | JArray l => mapM toValue l
  | _ => None
  end.

Definition storeField (f : field) (j : json) (p : trafficMessage.t)
    : option trafficMessage.t :=
  match f with
  | FPacketCount =>
      n ← storeInt j (trafficMessage.PacketCount p);
      Some (trafficMessage.mk n (trafficMessage.Timestamp p)
              (trafficMessage.Packets p))
  | FTimestamp =>
      n ← storeInt j (trafficMessage.Timestamp p);
      Some (trafficMessage.mk (trafficMessage.PacketCount p) n
              (trafficMessage.Packets p))
  | FPackets =>
      l ← storeSlice j;
      Some (trafficMessage.mk (trafficMessage.PacketCount p)
              (trafficMessage.Timestamp p) l)
  end.

(** The members of an object, stored in the order they are written; a key
    that selects no field is skipped. *)
Fixpoint storeMembers (kv : list (string * json)) (p : trafficMessage.t)
    : option trafficMessage.t :=
  match kv with
  | [] => Some p
  | (k, j) :: kv =>
      match findField k with
      | Some f => p' ← storeField f j p; storeMembers kv p'
      | None => storeMembers kv p
      end
  end.


(** A JSON value stored into a [trafficMessage]: [null] stores nothing,
    an object stores its members, anything else is an error. *)
Definition decode (j : json) (p : trafficMessage.t)
    : option trafficMessage.t :=
  match j with
  | JNull => Some p
  | JObject kv => storeMembers kv p
  | _ => None
  end.

(** [json.Unmarshal([]byte(data), &payload)] for a zero [payload]: [None]
    when it returns an error, the decoded [payload] otherwise. *)
Definition Unmarshal (data : string) : option trafficMessage.t :=
  j ← scan data; decode j trafficMessage.zero.

(** A payload written with single quotes in place of its double quotes. *)
Definition quoted (s : string) : string :=
  string_of_list_ascii
    ((λ c, if bool_decide (c = "'"%char) then "034"%char else c)
       <$> list_ascii_of_string s).
End Json.

Arguments Json.Unmarshal : simpl never.

(** ** config.go: configuration and logging *)

Record Config : Type := mkConfig {
  Debug : bool;
  RedisAddr : string;
  RedisDB : Z;
  ServerPort : string;
  RedisChannel : string;
}.

(** A line written to standard output, by its prefix and format string. *)
Inductive logLine : Type :=
  | DEBUG (format : string)
  | INFO (format : string)
  | ERROR (format : string).

(** [debugLog] prints only when debug mode is enabled. *)
Definition debugLog (config : Config) (format : string) : list logLine :=
  if Debug config then [DEBUG format] else [].

(** [infoLog] always prints. *)
Definition infoLog (format : string) : list logLine := [INFO format].

(** [errorLog] always prints. *)
Definition errorLog (format : string) : list logLine := [ERROR format].

(** ** fmt: [Sscanf(str, "%d", &timestamp)] *)

Module Fmt.
Local Open Scope Z_scope.
Import Json.

(** Leading space is skipped, rune by rune: the ASCII spaces and the
    Unicode spaces U+0085, U+00A0, U+1680, U+2000..U+200A, U+2028, U+2029,
    U+202F, U+205F, U+3000 (here by their UTF-8 bytes).  A line feed is an
    error ([None]). *)
Definition isSpace2 (c c1 : ascii) : bool :=
  bool_decide (code c = 194 ∧ (code c1 = 133 ∨ code c1 = 160)).

Definition isSpace3 (c c1 c2 : ascii) : bool :=
  bool_decide
    ((code c = 225 ∧ code c1 = 154 ∧ code c2 = 128)
     ∨ (code c = 226 ∧ code c1 = 128
        ∧ (128 ≤ code c2 ≤ 138 ∨ code c2 = 168 ∨ code c2 = 169
           ∨ code c2 = 175))
     ∨ (code c = 226 ∧ code c1 = 129 ∧ code c2 = 159)
     ∨ (code c = 227 ∧ code c1 = 128 ∧ code c2 = 128)).

Fixpoint SkipSpace (s : string) : option string :=
  match s with
  | EmptyString => Some s
  | String c r =>
      if bool_decide (code c = 10) then None
      else if between 9 13 c || bool_decide (code c = 32) then SkipSpace r
      else
        match r with
        | String c1 r1 =>
            if isSpace2 c c1 then SkipSpace r1
            else
              match r1 with
              | String c2 r2 =>
                  if isSpace3 c c1 c2 then SkipSpace r2 else Some s
              | EmptyString => Some s
              end
        | EmptyString => Some s
        end
  end.

(** The verb [%d] into an [int]: an optional sign, one or more decimal
    digits, converted by [strconv.ParseInt]; what follows the digits is
    left unread.  [Some v] when [Sscanf] returns [n = 1] and no error. *)
Definition Sscanf_d (str : string) : option Z :=
  s ← SkipSpace str;
  let '(neg, s) :=
    match s with
    | String "-" r => (true, r)
    | String "+" r => (false, r)
    | _ => (false, s)
    end in
  let '(ds, _) := takeDigits s in
  if bool_decide (ds = EmptyString) then None
  else
    let v := if neg then - digitsValue ds else digitsValue ds in
    if is_intb v then Some v else None.
End Fmt.

(** ** redis.go: startup reconstruction *)

(** What the Redis client returns to [initializeLatestData].  Each command of
    the function is sent at most once, so one reply per command describes
    the server; [FT.SEARCH] is asked for one timestamp, which selects the
    reply. *)
Inductive reply (A : Type) : Type :=
  | Ok (a : A)
  | Err (err : string).
Arguments Ok {A} a.
Arguments Err {A} err.

(** [redis.AggregateRow]: [Fields map[string]interface{}]. *)
Record AggregateRow : Type := mkRow { rowFields : gmap string value }.

(** [redis.Document]: [Fields map[string]string]. *)
Record Document : Type := mkDoc { docID : string; docFields : gmap string string }.

Record redisReplies : Type := mkReplies {
  FTInfo : reply unit;
  FTCreate : reply unit;
  FTAggregate : reply (list AggregateRow);
  FTSearch : Z → reply (list Document);
}.

Inductive redisCommand : Type := FT_INFO | FT_CREATE | FT_AGGREGATE | FT_SEARCH.

(** A [*websocket.Conn], by its identity. *)
Definition conn : Type := positive.

(** What the program does that the outside can see, in order: the commands
    it sends to Redis, the lines it logs, and the calls of
    [client.WriteMessage(websocket.TextMessage, []byte(msg))] with whether
    they returned without error. *)
Inductive effect : Type :=
  | Sent (cmd : redisCommand)
  | Logged (line : logLine)
  | Wrote (client : conn) (msg : string) (ok : bool).

(** How a function ends: it returns, or a run-time panic ends the process. *)
Inductive outcome (A : Type) : Type :=
  | Returns (a : A)
  | Panics.
Arguments Returns {A} a.
Arguments Panics {A}.

Section startup.
Variable config : Config.

(** [createIndexIfNotExists]: the error it returns, if any. *)
Definition createIndexIfNotExists (rdb : redisReplies)
    : list effect * option string :=
  match FTInfo rdb with
  | Ok _ =>
      (Sent FT_INFO
         :: (Logged <$> debugLog config "Index 'idx:packets' already exists"),
       None)
  | Err _ =>
      match FTCreate rdb with
      | Err err => ([Sent FT_INFO; Sent FT_CREATE], Some err)
      | Ok _ =>
          (Sent FT_INFO :: Sent FT_CREATE
             :: (Logged <$> infoLog "Index 'idx:packets' created successfully"),
           None)
      end
  end.

(** [initializeEmptyLatest]: stores the empty structure into [latest]. *)
Definition initializeEmptyLatest : list effect * latestData.t :=
  (Logged <$> debugLog config "Initialized with empty latest structure",
   emptyLatest).

Definition fallback (before : list effect) : list effect * outcome latestData.t :=
  let '(eff, l) := initializeEmptyLatest in (before ++ eff, Returns l).

(** The packet built for one document: a map holding each of its fields. *)
Definition packetData (doc : Document) : value :=
  VMap (VString <$> docFields doc).

(** [initializeLatestData]: the value it leaves in [latest]. *)
Definition initializeLatestData (rdb : redisReplies)
    : list effect * outcome latestData.t :=
  let '(e1, err) := createIndexIfNotExists rdb in
  match err with
  | Some _ => fallback (e1 ++ (Logged <$> errorLog "Error creating index: %v"))
  | None =>
      let e2 := e1 ++ [Sent FT_AGGREGATE] in
      match FTAggregate rdb with
      | Err _ =>
          fallback (e2 ++ (Logged <$> debugLog config
                                        "Error aggregating max timestamp: %v"))
      | Ok [] =>
          fallback (e2 ++ (Logged <$> debugLog config "No data found in index"))
      | Ok (row :: _) =>
          match default VNil (rowFields row !! "max_timestamp"%string) with
          | VNil =>
              fallback (e2 ++ (Logged <$> debugLog config "Max timestamp is nil"))
          | VString maxTimestampStr =>
              match Fmt.Sscanf_d maxTimestampStr with
              | None =>
                  fallback (e2 ++ (Logged <$> errorLog
                                                "Error parsing timestamp '%s': %v"))
              | Some timestamp =>
                  let e3 := e2 ++ (Logged <$> debugLog config "Max timestamp: %d")
                               ++ [Sent FT_SEARCH] in
                  match FTSearch rdb timestamp with
                  | Err _ =>
                      fallback (e3 ++ (Logged <$> errorLog
                                                    "Error searching for packets: %v"))
                  | Ok docs =>
                      (e3 ++ (Logged <$> debugLog config
                                           "Found %d packets with timestamp %d")
                          ++ (Logged <$> infoLog
                                "Initialized with data: timestamp=%d packet_count=%d packets=%d"),
                       Returns
                         {| latestData.Timestamp := timestamp;
                            latestData.PacketCount := len docs;
                            latestData.Packets := packetData <$> docs |})
                  end
              end
          | _ => (e2, Panics)
          end
      end
  end.
End startup.


(** Every step succeeds: the index exists or is created, the first row of
    the aggregation carries a timestamp that scans, and the search for that
    timestamp returns [docs]. *)
Definition startupSuccess (rdb : redisReplies) (timestamp : Z)
    (docs : list Document) : Prop :=
  (FTInfo rdb = Ok () ∨ FTCreate rdb = Ok ())
  ∧ ∃ row rows str,
      FTAggregate rdb = Ok (row :: rows)
      ∧ rowFields row !! "max_timestamp"%string = Some (VString str)
      ∧ Fmt.Sscanf_d str = Some timestamp
      ∧ FTSearch rdb timestamp = Ok docs.

(** ** types.go: the shared variables; websocket.go; the subscriber loop *)

(** A buffered channel of strings, [make(chan string, capacity)], by its
    buffer (oldest element first).  A send that finds the buffer full and a
    receive that finds it empty do not complete: they wait ([None]). *)
Module Chan.
Definition send (capacity : nat) (buf : list string) (v : string)
    : option (list string) :=
  if decide (length buf < capacity) then Some (buf ++ [v]) else None.

Definition recv (buf : list string) : option (string * list string) :=
  match buf with
  | v :: buf' => Some (v, buf')
  | [] => None
  end.

End Chan.

(** [broadcast = make(chan string, 100)] *)
Definition broadcastCap : nat := 100.

(** Where [startRedisSubscriber] stands. *)
Inductive subscriber : Type :=
  | Subscribing                  (* in [pubsub.Receive] *)
  | Ranging                      (* at [for msg := range ch] *)
  | Sending (payload : string)   (* at [broadcast <- msg.Payload] *)
  | Decoding (payload : string)  (* before [json.Unmarshal] *)
  | SubscriberReturned.

(** Where [handleMessages] stands. *)
Inductive dispatcher : Type :=
  | Receiving                    (* at [for msg := range broadcast] *)
  | Dispatching (msg : string).  (* before [clientsMu.Lock] *)

Record state : Type := mkState {
  latest : latestData.t;
  clients : gmap conn bool;
  broadcast : list string;
  subscriberAt : subscriber;
  dispatcherAt : dispatcher;
  (** the connections [upgrader.Upgrade] has returned so far *)
  upgraded : gset conn;
  (** the connections whose [handleWebSocket] is in its read loop *)
  reading : gset conn;
  (** everything done so far *)
  effects : list effect;
}.

(** One step of one goroutine, with what the outside world decides in it. *)
Inductive label : Type :=
  | SubscribeReply (ok : bool)     (* [pubsub.Receive] returns *)
  | Message (payload : string)     (* [ch] delivers a message *)
  | SourceClosed                   (* [ch] is closed *)
  | Enqueue                        (* [broadcast <- msg.Payload] completes *)
  | Decode                         (* [json.Unmarshal] and the update of [latest] *)
  | Dequeue                        (* [range broadcast] delivers a message *)
  | Dispatch (order : list conn) (writeFails : conn → bool)
                                   (* the locked loop over [clients] *)
  | UpgradeFailed                  (* [upgrader.Upgrade] returns an error *)
  | Connect (c : conn)             (* [upgrader.Upgrade] returns [c]; it is registered *)
  | ClientMessage (c : conn)       (* [conn.ReadMessage] returns a message *)
  | Disconnect (c : conn).         (* [conn.ReadMessage] returns an error *)

(** [clients[conn] = true] and [delete(clients, conn)]. *)
Definition register (c : conn) (clients : gmap conn bool) : gmap conn bool :=
  <[c := true]> clients.

Definition unregister (c : conn) (clients : gmap conn bool) : gmap conn bool :=
  delete c clients.

Section server.
Variable config : Config.

(** The lines logged around the update of [latest]. *)
Definition updateLog (latest : latestData.t) (payload : trafficMessage.t)
    : list logLine :=
  debugLog config "Received: packet_count=%d timestamp=%d packets_len=%d"
  ++ if decide (trafficMessage.Timestamp payload = latestData.Timestamp latest)
     then debugLog config "Accumulated: total packet_count=%d total_packets=%d"
     else debugLog config "Replaced: new timestamp=%d packet_count=%d packets=%d".

(** The loop [for client := range clients] of [handleMessages], for the
    order in which the map hands out its keys and for the connections
    whose write fails. *)
Fixpoint sendAll (msg : string) (order : list conn) (writeFails : conn → bool)
    (clients : gmap conn bool) : gmap conn bool * list effect :=
  match order with
  | [] => (clients, [])
  | client :: order =>
      if writeFails client then
        let '(clients', eff) :=
          sendAll msg order writeFails (unregister client clients) in
        (clients',
         Wrote client msg false
           :: (Logged <$> debugLog config "Error sending message to WebSocket: %v")
           ++ (Logged <$> debugLog config "Client disconnected: %s")
           ++ eff)
      else
        let '(clients', eff) := sendAll msg order writeFails clients in
        (clients', Wrote client msg true :: eff)
  end.

(** A range over a map visits every key once, in an order of its own. *)
Definition enumerates (order : list conn) (clients : gmap conn bool) : Prop :=
  NoDup order ∧ list_to_set order = dom clients.

Definition step (s : state) (l : label) : option state :=
  match l, subscriberAt s, dispatcherAt s with
  | SubscribeReply true, Subscribing, _ =>
      Some (mkState (latest s) (clients s) (broadcast s) Ranging
              (dispatcherAt s) (upgraded s) (reading s)
              (effects s ++ (Logged <$> infoLog "Subscribed to %s")))
  | SubscribeReply false, Subscribing, _ =>
      Some (mkState (latest s) (clients s) (broadcast s) SubscriberReturned
              (dispatcherAt s) (upgraded s) (reading s)
              (effects s
                 ++ (Logged <$> errorLog "Error receiving message from Redis: %v")))
  | Message payload, Ranging, _ =>
      Some (mkState (latest s) (clients s) (broadcast s) (Sending payload)
              (dispatcherAt s) (upgraded s) (reading s) (effects s))
  | SourceClosed, Ranging, _ =>
      Some (mkState (latest s) (clients s) (broadcast s) SubscriberReturned
              (dispatcherAt s) (upgraded s) (reading s) (effects s))
  | Enqueue, Sending payload, _ =>
      buf ← Chan.send broadcastCap (broadcast s) payload;
      Some (mkState (latest s) (clients s) buf (Decoding payload)
              (dispatcherAt s) (upgraded s) (reading s) (effects s))
  | Decode, Decoding data, _ =>
      match Json.Unmarshal data with
      | None =>
          Some (mkState (latest s) (clients s) (broadcast s) Ranging
                  (dispatcherAt s) (upgraded s) (reading s)
                  (effects s
                     ++ (Logged <$> errorLog "Error decoding traffic payload: %v")))
      | Some payload =>
          Some (mkState (updateLatest (latest s) payload) (clients s)
                  (broadcast s) Ranging
                  (dispatcherAt s) (upgraded s) (reading s)
                  (effects s ++ (Logged <$> updateLog (latest s) payload)))
      end
  | Dequeue, _, Receiving =>
      '(msg, buf) ← Chan.recv (broadcast s);
      Some (mkState (latest s) (clients s) buf (subscriberAt s)
              (Dispatching msg) (upgraded s) (reading s) (effects s))
  | Dispatch order writeFails, _, Dispatching msg =>
      if decide (enumerates order (clients s)) then
        let '(clients', eff) := sendAll msg order writeFails (clients s) in
        Some (mkState (latest s) clients' (broadcast s) (subscriberAt s)
                Receiving (upgraded s) (reading s) (effects s ++ eff))
      else None
  | UpgradeFailed, _, _ =>
      Some (mkState (latest s) (clients s) (broadcast s) (subscriberAt s)
              (dispatcherAt s) (upgraded s) (reading s)
              (effects s ++ (Logged <$> errorLog "Error upgrading to WebSocket: %v")))
  | Connect c, _, _ =>
      if decide (c ∈ upgraded s) then None
      else
        Some (mkState (latest s) (register c (clients s)) (broadcast s)
                (subscriberAt s) (dispatcherAt s)
                ({[c]} ∪ upgraded s) ({[c]} ∪ reading s)
                (effects s
                   ++ (Logged <$> infoLog "WebSocket connection established: %s")))
  | ClientMessage c, _, _ =>
      if decide (c ∈ reading s) then
        Some (mkState (latest s) (clients s) (broadcast s) (subscriberAt s)
                (dispatcherAt s) (upgraded s) (reading s)
                (effects s
                   ++ (Logged <$> debugLog config
                                    "Received message from WebSocket client: %s")))
      else None
  | Disconnect c, _, _ =>
      if decide (c ∈ reading s) then
        Some (mkState (latest s) (unregister c (clients s)) (broadcast s)
                (subscriberAt s) (dispatcherAt s)
                (upgraded s) (reading s ∖ {[c]})
                (effects s
                   ++ (Logged <$> debugLog config "WebSocket connection closed: %s")))
      else None
  | _, _, _ => None
  end.

(** A run: steps taken one after the other. *)
Fixpoint run (s : state) (ls : list label) : option state :=
  match ls with
  | [] => Some s
  | l :: ls => s' ← step s l; run s' ls
  end.
End server.

(** Modelled from the spec: the start of the process ([main], whose file is
    not among the sources).  Startup reconstruction has run to completion and
    left [latest0] in [latest]; the subscriber and the dispatcher are started
    once; nothing is queued and nobody is connected. *)
Definition initialState (latest0 : latestData.t) : state :=
  {| latest := latest0; clients := ∅; broadcast := [];
     subscriberAt := Subscribing; dispatcherAt := Receiving;
     upgraded := ∅; reading := ∅; effects := [] |}.


(** The Redis commands among a list of effects. *)
Definition commandsOf (eff : list effect) : list redisCommand :=
  omap (λ e, match e with Sent cmd => Some cmd | _ => None end) eff.


(** The same state with the subscriber standing elsewhere. *)
Definition withSubscriber (at_ : subscriber) (s : state) : state :=
  mkState (latest s) (clients s) (broadcast s) at_ (dispatcherAt s)
    (upgraded s) (reading s) (effects s).

(** The labels that are steps of [startRedisSubscriber]. *)
Definition subscriberLabel (l : label) : bool :=
  match l with
  | SubscribeReply _ | Message _ | SourceClosed | Enqueue | Decode => true
  | _ => false
  end.


(** ** Sample data *)

Definition sampleConfig : Config :=
  {| Debug := false; RedisAddr := "ejfat-6.jlab.org:6379"; RedisDB := 0;
     ServerPort := ":8080"; RedisChannel := "traffic_channel" |}.

(** Three connections A, B, C; every write to B fails. *)
Definition connA : conn := 1%positive.
Definition connB : conn := 2%positive.
Definition connC : conn := 3%positive.
Definition failsB (c : conn) : bool := bool_decide (c = connB).

(** The server with A, B and C connected, the subscription confirmed, and one
    payload received, queued, decoded and taken off the queue. *)
Definition sampleBeforeDispatch : list label :=
  [Connect connA; Connect connB; Connect connC; SubscribeReply true;
   Message "not json"; Enqueue; Decode; Dequeue].




(** Payloads that decode although they lack [packets], or carry a count
    that is not the number of their packets. *)
Definition payloadNoPackets : string :=
  Json.quoted "{'timestamp':5,'packet_count':3}".


(** ** config.go: [initConfig] and [getEnv] *)

(** The environment of the process: the variables that are set, with their
    values.  [os.Getenv] returns the empty string for a variable that is not
    set. *)
Definition Getenv (env : gmap string string) (key : string) : string :=
  default EmptyString (env !! key).

(** [getEnv] gets an environment variable with a default fallback. *)
Definition getEnv (env : gmap string string) (key defaultValue : string)
    : string :=
  let value := Getenv env key in
  if decide (value ≠ EmptyString) then value else defaultValue.

(** [initConfig]: the value it stores into [config]. *)
Definition initConfig (env : gmap string string) : Config :=
  {| Debug := bool_decide (Getenv env "DEBUG" = "true")
              || bool_decide (Getenv env "DEBUG" = "1");
     RedisAddr := getEnv env "REDIS_ADDR" "ejfat-6.jlab.org:6379";
     RedisDB := 0;
     ServerPort := getEnv env "SERVER_PORT" ":8080";
     RedisChannel := getEnv env "REDIS_CHANNEL" "traffic_channel" |}.

(** ** The handlers file: [handleLatest] *)


(** ** Observations on runs *)






(** The update of [latest], message after message. *)
Definition mergeAll (latest0 : latestData.t) (ms : list trafficMessage.t)
    : latestData.t :=
  foldl updateLatest latest0 ms.




(** The shared variable a step writes, if any: [latest] under [latestMu],
    [clients] under [clientsMu], or the channel [broadcast]. *)
Inductive shared : Type := SharedLatest | SharedClients | SharedBroadcast.

Definition writes (l : label) : option shared :=
  match l with
  | Decode => Some SharedLatest
  | Enqueue | Dequeue => Some SharedBroadcast
  | Dispatch _ _ | Connect _ | Disconnect _ => Some SharedClients
  | _ => None
  end.

(** The labels that are steps of [handleMessages]. *)
Definition dispatcherLabel (l : label) : bool :=
  match l with
  | Dequeue | Dispatch _ _ => true
  | _ => false
  end.




(** Whether a dynamic value is a string. *)
Definition isString (v : value) : bool :=
  match v with VString _ => true | _ => false end.

(** The sum of a list of integers. *)
Definition sumZ (zs : list Z) : Z := foldr Z.add 0%Z zs.

(* ===================================================================== *)
(** * Properties *)
(* ===================================================================== *)

(** ** Arithmetic of [int] *)

Section int_facts.
Local Open Scope Z_scope.

Lemma wrap_is_int z : is_int (wrap z).
Proof.
  unfold is_int, wrap, int_min, int_max, int_bits.
  pose proof (Z.mod_pos_bound (z - - 2 ^ (64 - 1)) (2 ^ 64)). lia.
Qed.

Lemma wrap_id z : is_int z → wrap z = z.
Proof.
  unfold is_int, wrap, int_min, int_max, int_bits. intros Hz.
  rewrite Z.mod_small; lia.
Qed.

Lemma wrap_wrap_add a b : wrap (wrap a + b) = wrap (a + b).
Proof.
  unfold wrap.
  replace ((a - int_min) mod 2 ^ int_bits + int_min + b - int_min)
    with ((a - int_min) mod 2 ^ int_bits + b) by lia.
  replace (a + b - int_min) with ((a - int_min) + b) by lia.
  by rewrite Zplus_mod_idemp_l.
Qed.

Lemma int_add_exact a b : is_int (a + b) → int_add a b = a + b.
Proof. apply wrap_id. Qed.

End int_facts.

(** ** The update of [latest] *)

Section update_facts.
Local Open Scope Z_scope.
Implicit Types (S : latestData.t) (M : trafficMessage.t).

Lemma updateLatest_same S M :
  trafficMessage.Timestamp M = latestData.Timestamp S →
  updateLatest S M =
    {| latestData.Timestamp := latestData.Timestamp S;
       latestData.PacketCount :=
         int_add (latestData.PacketCount S) (trafficMessage.PacketCount M);
       latestData.Packets :=
         latestData.Packets S ++ trafficMessage.Packets M |}.
Proof. intros Heq. unfold updateLatest. by rewrite decide_True. Qed.

Lemma updateLatest_other S M :
  trafficMessage.Timestamp M ≠ latestData.Timestamp S →
  updateLatest S M = snapshotOf M.
Proof. intros Hne. unfold updateLatest. by rewrite decide_False. Qed.

(** Whichever branch runs, the snapshot carries the message's timestamp. *)
Lemma updateLatest_timestamp S M :
  latestData.Timestamp (updateLatest S M) = trafficMessage.Timestamp M.
Proof. unfold updateLatest. by case_decide. Qed.

Lemma updateLatest_valid S M :
  validLatest S → validMessage M → validLatest (updateLatest S M).
Proof.
  intros [HSc HSt] [HMc HMt]. unfold updateLatest, validLatest.
  case_decide; simpl; [split; [apply wrap_is_int | done] | done].
Qed.

End update_facts.

(** C1, as stated, fails: with equal timestamps the new count is not always
    the sum of the two counts.  Both counts below are values of [int]; their
    sum is not, and [+=] wraps it around to [int_min]. *)
Lemma accumulate_exact_sum_counterexample :
  ¬ (∀ (S : latestData.t) (M : trafficMessage.t),
       validLatest S → validMessage M →
       trafficMessage.Timestamp M = latestData.Timestamp S →
       latestData.PacketCount (updateLatest S M)
       = (latestData.PacketCount S + trafficMessage.PacketCount M)%Z).
Proof.
  intros H.
  specialize (H (latestData.mk 5 int_max []) (trafficMessage.mk 1 5 [])).
  assert (Hint : ∀ z, is_intb z = true → is_int z).
  { intros z Hz. unfold is_intb in Hz. apply andb_prop in Hz as [H1 H2].
    apply Z.leb_le in H1, H2. done. }
  cut (int_min = (int_max + 1)%Z); [by vm_compute|].
  apply H; [split; by apply Hint | split; by apply Hint | done].
Qed.

(** C1 (amended): merging a message whose timestamp equals the snapshot's
    keeps the timestamp, appends the message's events in order, and adds the
    message's count to the snapshot's count in [int] arithmetic: the sum
    reduced to the 64-bit range by wrap-around, hence the exact sum whenever
    that lies in the range.  Consequently merging M1 then M2 (equal
    timestamps) into the empty snapshot yields M1's timestamp, the events of
    M1 followed by those of M2, and the [int] sum of the two counts. *)
Theorem accumulate_equal_timestamp :
  (∀ (S : latestData.t) (M : trafficMessage.t),
     trafficMessage.Timestamp M = latestData.Timestamp S →
     let S' := updateLatest S M in
     latestData.Timestamp S' = latestData.Timestamp S
     ∧ latestData.PacketCount S'
       = int_add (latestData.PacketCount S) (trafficMessage.PacketCount M)
     ∧ (is_int (latestData.PacketCount S + trafficMessage.PacketCount M)%Z →
        latestData.PacketCount S'
        = (latestData.PacketCount S + trafficMessage.PacketCount M)%Z)
     ∧ latestData.Packets S'
       = latestData.Packets S ++ trafficMessage.Packets M)
  ∧ (∀ (M1 M2 : trafficMessage.t),
       trafficMessage.Timestamp M2 = trafficMessage.Timestamp M1 →
       let S' := updateLatest (updateLatest emptyLatest M1) M2 in
       latestData.Timestamp S' = trafficMessage.Timestamp M1
       ∧ latestData.PacketCount S'
         = int_add (trafficMessage.PacketCount M1) (trafficMessage.PacketCount M2)
       ∧ (is_int (trafficMessage.PacketCount M1 + trafficMessage.PacketCount M2)%Z →
          latestData.PacketCount S'
          = (trafficMessage.PacketCount M1 + trafficMessage.PacketCount M2)%Z)
       ∧ latestData.Packets S'
         = trafficMessage.Packets M1 ++ trafficMessage.Packets M2).
Proof.
  split.
  - intros S M Heq S'. subst S'. rewrite (updateLatest_same _ _ Heq); simpl.
    repeat split; try done. apply int_add_exact.
  - intros M1 M2 Heq S'.
    assert (Hcount : latestData.PacketCount S'
                     = int_add (trafficMessage.PacketCount M1)
                               (trafficMessage.PacketCount M2)
             ∧ latestData.Packets S'
               = trafficMessage.Packets M1 ++ trafficMessage.Packets M2).
    { subst S'. rewrite (updateLatest_same _ M2)
        by (by rewrite updateLatest_timestamp). simpl.
      unfold updateLatest, emptyLatest; simpl. case_decide; simpl; [|done].
      split; [|done]. unfold int_add. rewrite Z.add_0_l. apply wrap_wrap_add. }
    destruct Hcount as [Hc Hp]. repeat split; try done.
    + subst S'. by rewrite updateLatest_timestamp.
    + intros Hin. rewrite Hc. by apply int_add_exact.
Qed.

(** The amended C1 at a concrete snapshot and message. *)
Lemma accumulate_equal_timestamp_witness :
  let S := latestData.mk 5 3 [VString "e1"; VString "e2"; VString "e3"] in
  let M := trafficMessage.mk 2 5 [VString "e4"; VString "e5"] in
  updateLatest S M
  = latestData.mk 5 5
      [VString "e1"; VString "e2"; VString "e3"; VString "e4"; VString "e5"].
Proof.
  intros S M.
  destruct (proj1 accumulate_equal_timestamp S M eq_refl) as (Ht & _ & Hc & Hp).
  specialize (Hc ltac:(by vm_compute)).
  destruct (updateLatest S M) as [t c p]; simpl in *. by rewrite Ht, Hc, Hp.
Defined.



(** C3: if the snapshot's count is the number of its events and the
    message's count is the number of its events, the same holds of the
    merged snapshot, in the accumulate branch and in the replace branch
    (the appended slice being a slice, its length is an [int]); and the
    empty startup snapshot has count 0 and no events. *)
Theorem count_length_consistency :
  (∀ (S : latestData.t) (M : trafficMessage.t),
     countConsistent S → msgConsistent M →
     is_int (len (latestData.Packets S ++ trafficMessage.Packets M)) →
     countConsistent (updateLatest S M))
  ∧ countConsistent emptyLatest.
Proof.
  split; [|done].
  intros S M HS HM Hlen. unfold countConsistent, msgConsistent in *.
  unfold updateLatest. case_decide; simpl; [|done].
  unfold len in *. rewrite length_app, Nat2Z.inj_add in *.
  rewrite HS, HM. by apply int_add_exact.
Qed.

(** C3 at a concrete snapshot and message (accumulate branch). *)
Lemma count_length_consistency_witness :
  countConsistent
    (updateLatest (latestData.mk 5 2 [VNil; VBool true])
                  (trafficMessage.mk 1 5 [VString "e"])).
Proof.
  apply (proj1 count_length_consistency); by vm_compute.
Defined.

(** ** The fan-out queue *)

Section chan_facts.
Implicit Types (buf : list string) (v : string).

Lemma send_space capacity buf v :
  length buf < capacity → Chan.send capacity buf v = Some (buf ++ [v]).
Proof. intros Hlt. unfold Chan.send. by rewrite decide_True. Qed.



Lemma recv_Some buf v buf' :
  Chan.recv buf = Some (v, buf') → buf = v :: buf'.
Proof. destruct buf; naive_solver. Qed.
End chan_facts.

(** ** The subscriber loop *)

(** C4: every payload the source delivers is put on the fan-out queue before
    it is decoded: when the subscriber holds a payload, decoding is not its
    next step, the send is (it completes as soon as the queue has room), and
    it appends the payload as it is and leaves the snapshot alone.  If the
    payload then fails to decode, the step that finds this out logs an
    error, leaves the snapshot, the registry and the queue (which still
    holds the payload) as they were, and takes the subscriber back to the
    head of its loop, ready for the next message. *)
Theorem parse_failure_forwarding (config : Config) (s : state) (payload : string) :
  subscriberAt s = Ranging →
  length (broadcast s) < broadcastCap →
  ∃ s1 s2,
    step config s (Message payload) = Some s1
    ∧ step config s1 Decode = None
    ∧ step config s1 Enqueue = Some s2
    ∧ broadcast s2 = broadcast s ++ [payload]
    ∧ latest s2 = latest s
    ∧ (Json.Unmarshal payload = None →
       ∃ s3,
         step config s2 Decode = Some s3
         ∧ latest s3 = latest s
         ∧ clients s3 = clients s
         ∧ broadcast s3 = broadcast s ++ [payload]
         ∧ subscriberAt s3 = Ranging
         ∧ effects s3
           = effects s ++ [Logged (ERROR "Error decoding traffic payload: %v")]).
Proof.
  intros Hat Hroom. destruct s as [la cl br su di up re ef]; simpl in *; subst su.
  eexists _, _. split; [reflexivity|]. split; [reflexivity|].
  split. { unfold step; simpl. by rewrite send_space. }
  simpl. split; [done|]. split; [done|].
  intros Herr. eexists. split. { unfold step; simpl. by rewrite Herr. }
  done.
Qed.

(** ** The dispatch loop and the registry *)

Section dispatch_facts.
Variable config : Config.
Implicit Types (order : list conn) (cl : gmap conn bool) (c : conn).






End dispatch_facts.

(** Case analysis on an enabled step. *)
Ltac step_inv H :=
  match type of H with
  | step _ ?s ?l = Some _ =>
      destruct s as [la cl br su di up re ef];
      tryif is_var l then destruct l else idtac;
      cbn in H; try discriminate;
      repeat first
        [ apply bind_Some in H as (? & ? & H)
        | case_match; try discriminate ];
      simplify_eq/=;
      repeat match goal with Hd : decide _ = _ |- _ => clear Hd end
  end.

Section system_facts.
Variable config : Config.
Implicit Types (s : state) (l : label) (ls : list label) (c : conn).

Lemma run_cons s l s1 ls :
  step config s l = Some s1 → run config s (l :: ls) = run config s1 ls.
Proof. intros Hstep. cbn [run]. by rewrite Hstep. Qed.












(** Once the subscriber has returned it takes no step: [latest] keeps its
    value and the queue only loses elements. *)
Lemma step_returned s l s' :
  step config s l = Some s' →
  subscriberAt s = SubscriberReturned →
  subscriberAt s' = SubscriberReturned ∧ latest s' = latest s
  ∧ subscriberLabel l = false ∧ broadcast s' `suffix_of` broadcast s.
Proof.
  intros Hstep Hat. step_inv Hstep; try done.
  match goal with Hr : Chan.recv _ = Some _ |- _ =>
    apply recv_Some in Hr as -> end.
  split_and!; try done. by apply suffix_cons_r.
Qed.

Lemma run_returned s ls s' :
  run config s ls = Some s' →
  subscriberAt s = SubscriberReturned →
  subscriberAt s' = SubscriberReturned ∧ latest s' = latest s
  ∧ (∀ l, l ∈ ls → subscriberLabel l = false)
  ∧ broadcast s' `suffix_of` broadcast s.
Proof.
  revert s. induction ls as [|l ls IH]; intros s Hrun Hat.
  { simplify_eq/=. split_and!; try done. intros l Hl. by apply not_elem_of_nil in Hl. }
  cbn in Hrun. apply bind_Some in Hrun as (s1 & Hstep & Hrun).
  destruct (step_returned _ _ _ Hstep Hat) as (Hat1 & Hla1 & Hl & Hbr1).
  destruct (IH s1 Hrun Hat1) as (Hat' & Hla' & Hls & Hbr').
  split_and!; [done | congruence | | by etrans].
  intros l' [->|Hin]%elem_of_cons; [done | by apply Hls].
Qed.

(** The goroutines other than the subscriber do not look at where the
    subscriber stands. *)
Lemma step_withSubscriber at_ s l :
  subscriberLabel l = false →
  step config (withSubscriber at_ s) l = withSubscriber at_ <$> step config s l.
Proof.
  intros Hl. destruct s as [la cl br su di up re ef].
  destruct l; try discriminate; unfold withSubscriber; cbn.
  - destruct di; [|by destruct su]. destruct su, at_, br; by cbn.
  - destruct di; [by destruct su, at_|].
    destruct su, at_; cbn; case_decide; try done;
      by destruct (sendAll _ _ _ _ _).
  - by destruct su, at_, di.
  - destruct su, at_, di; by case_decide.
  - destruct su, at_, di; by case_decide.
  - destruct su, at_, di; by case_decide.
Qed.
End system_facts.



(** C4 on the payload [not json]. *)
Lemma parse_failure_forwarding_witness :
  let s := withSubscriber Ranging (initialState emptyLatest) in
  subscriberAt s = Ranging
  ∧ length (broadcast s) < broadcastCap
  ∧ Json.Unmarshal "not json" = None
  ∧ ∃ s3,
      run sampleConfig s [Message "not json"; Enqueue; Decode] = Some s3
      ∧ latest s3 = emptyLatest
      ∧ broadcast s3 = ["not json"]
      ∧ subscriberAt s3 = Ranging.
Proof.
  intros s.
  assert (H1 : subscriberAt s = Ranging) by done.
  assert (H2 : length (broadcast s) < broadcastCap) by (vm_compute; lia).
  assert (H3 : Json.Unmarshal "not json" = None) by by vm_compute.
  split_and!; try done.
  destruct (parse_failure_forwarding sampleConfig s "not json" H1 H2)
    as (s1 & s2 & Hm & _ & He & _ & _ & Hdec).
  destruct (Hdec H3) as (s3 & Hd & Hl3 & _ & Hb3 & Hat3 & _).
  exists s3. split; [|split; [exact Hl3 | split; [exact Hb3 | exact Hat3]]].
  rewrite (run_cons _ _ _ _ _ Hm), (run_cons _ _ _ _ _ He), (run_cons _ _ _ _ _ Hd).
  reflexivity.
Defined.

(** C9: deleting a connection that is not in the registry leaves the
    registry as it is, whatever the registry and the connection; so deleting
    a connection twice is deleting it once, and the delete that
    [handleWebSocket] performs for a connection that the dispatch loop has
    already removed changes nothing in the registry. *)
Theorem unregister_idempotent :
  (∀ (cl : gmap conn bool) (c : conn), cl !! c = None → unregister c cl = cl)
  ∧ (∀ (cl : gmap conn bool) (c : conn),
       unregister c (unregister c cl) = unregister c cl)
  ∧ (∀ (config : Config) (s : state) (c : conn),
       c ∈ reading s → clients s !! c = None →
       ∃ s', step config s (Disconnect c) = Some s' ∧ clients s' = clients s).
Proof.
  split_and!.
  - intros cl c Hc. by apply delete_id.
  - intros cl c. apply delete_id, lookup_delete_eq.
  - intros config [la cl br su di up re ef] c Hre Hcl; simpl in *.
    eexists. split.
    + unfold step; simpl. destruct su, di; by rewrite decide_True.
    + simpl. by apply delete_id.
Qed.

(** C9 on B, removed by the dispatch loop and then by its own handler. *)
Lemma unregister_idempotent_witness :
  ∃ s1 s2,
    run sampleConfig (initialState emptyLatest)
      (sampleBeforeDispatch ++ [Dispatch [connC; connA; connB] failsB]) = Some s1
    ∧ connB ∈ reading s1 ∧ clients s1 !! connB = None
    ∧ step sampleConfig s1 (Disconnect connB) = Some s2
    ∧ clients s2 = clients s1.
Proof.
  destruct (run sampleConfig (initialState emptyLatest)
              (sampleBeforeDispatch ++ [Dispatch [connC; connA; connB] failsB]))
    as [s1|] eqn:H1; [|by vm_compute in H1].
  assert (Hre : connB ∈ reading s1).
  { vm_compute in H1. injection H1 as <-. apply (bool_decide_unpack _). by vm_compute. }
  assert (Hcl : clients s1 !! connB = None).
  { vm_compute in H1. by injection H1 as <-. }
  destruct (proj2 (proj2 unregister_idempotent) sampleConfig s1 connB Hre Hcl)
    as (s2 & Hstep & Heq).
  exists s1, s2. split; [reflexivity|]. split; [exact Hre|].
  split; [exact Hcl|]. split; [exact Hstep | exact Heq].
Defined.

(** ** The fan-out queue: bound and backpressure *)




(** ** Subscription failure *)

(** C8: if the subscription is not confirmed, [startRedisSubscriber] logs an
    error and returns, having touched neither [latest] nor the queue.  From
    then on, whatever the rest of the server does, the subscriber takes no
    step (it is not started again and does not retry): [latest] keeps its
    value for ever and nothing is added to the queue.  The other goroutines
    go on as before: each of their steps is enabled and acts exactly as it
    would with the subscriber anywhere else. *)
Theorem subscription_failure_ends_ingest_only (config : Config) (s : state) :
  subscriberAt s = Subscribing →
  ∃ s1,
    step config s (SubscribeReply false) = Some s1
    ∧ s1 = mkState (latest s) (clients s) (broadcast s) SubscriberReturned
             (dispatcherAt s) (upgraded s) (reading s)
             (effects s
                ++ [Logged (ERROR "Error receiving message from Redis: %v")])
    ∧ (∀ ls s2, run config s1 ls = Some s2 →
         subscriberAt s2 = SubscriberReturned
         ∧ latest s2 = latest s
         ∧ broadcast s2 `suffix_of` broadcast s
         ∧ ∀ l, l ∈ ls → subscriberLabel l = false)
    ∧ (∀ l s', subscriberLabel l = true → subscriberAt s' = SubscriberReturned →
               step config s' l = None)
    ∧ (∀ l s', subscriberLabel l = false →
         step config (withSubscriber SubscriberReturned s') l
         = withSubscriber SubscriberReturned <$> step config s' l).
Proof.
  intros Hat. destruct s as [la cl br su di up re ef]; simpl in *; subst su.
  eexists. split; [reflexivity|]. split; [reflexivity|]. split_and!.
  - intros ls s2 Hrun.
    destruct (run_returned config _ _ _ Hrun eq_refl) as (H1 & H2 & H3 & H4).
    done.
  - intros l [la' cl' br' su' di' up' re' ef'] Hl Hret; simpl in *; subst su'.
    by destruct l as [[]| | | | | | | | | |].
  - intros l s' Hl. by apply step_withSubscriber.
Qed.

(** C8 on the server just started. *)
Lemma subscription_failure_ends_ingest_only_witness :
  subscriberAt (initialState emptyLatest) = Subscribing
  ∧ ∃ s1 s2,
      step sampleConfig (initialState emptyLatest) (SubscribeReply false) = Some s1
      ∧ effects s1 = [Logged (ERROR "Error receiving message from Redis: %v")]
      ∧ step sampleConfig s1 (Message "x") = None
      ∧ run sampleConfig s1 [Connect connA; ClientMessage connA; Disconnect connA]
        = Some s2
      ∧ latest s2 = emptyLatest ∧ broadcast s2 = [].
Proof.
  split; [reflexivity|].
  destruct (subscription_failure_ends_ingest_only sampleConfig
              (initialState emptyLatest) eq_refl)
    as (s1 & Hstep & -> & Hrun & Hdead & _).
  eexists _, _. split; [exact Hstep|]. split; [reflexivity|].
  split; [by apply Hdead|]. split; [by vm_compute|]. split; reflexivity.
Defined.

(** ** Startup reconstruction *)

Lemma commandsOf_app eff1 eff2 :
  commandsOf (eff1 ++ eff2) = commandsOf eff1 ++ commandsOf eff2.
Proof. apply omap_app. Qed.

Lemma commandsOf_logged (ls : list logLine) : commandsOf (Logged <$> ls) = [].
Proof. by induction ls. Qed.



(** ** Decoding *)



(** ** The scanner's fuel *)

Section scanner_facts.
Import Json.

Lemma after_length c s r :
  after c s = Some r → String.length s = S (String.length r).
Proof. destruct s as [|c' s]; simpl; [done|]. case_bool_decide; naive_solver. Qed.

Lemma afterPrefix_length p s r :
  afterPrefix p s = Some r →
  String.length s = String.length p + String.length r.
Proof.
  revert s. induction p as [|c p IH]; intros s Hp; simpl in *; [by simplify_eq|].
  apply bind_Some in Hp as (r1 & Ha%after_length & Hp%IH). lia.
Qed.

Lemma skipSpace_length s : String.length (skipSpace s) ≤ String.length s.
Proof. induction s as [|c s IH]; simpl; [done|]. destruct (isSpace c); simpl; lia. Qed.

Lemma takeDigits_length s ds r :
  takeDigits s = (ds, r) → String.length r ≤ String.length s.
Proof.
  revert ds r. induction s as [|c s IH]; intros ds r Ht; simpl in *; [by simplify_eq|].
  destruct (isDigit c); [|by simplify_eq].
  destruct (takeDigits s) as [ds' r'] eqn:Hs. simplify_eq.
  specialize (IH _ _ eq_refl). lia.
Qed.

Lemma scanString_length s b r :
  scanString s = Some (b, r) → String.length r < String.length s.
Proof.
  remember (String.length s) as n eqn:Hn. revert s b r Hn.
  induction n as [n IH] using lt_wf_ind. intros s b r -> Hs.
  destruct s as [|c s]; simpl in Hs; [done|].
  repeat first
    [ apply bind_Some in Hs as ([? ?] & Hrec & Hs)
    | case_match; try done ];
    simplify_eq;
    try (eapply IH in Hrec; [| |reflexivity]; [|simpl; lia]);
    simpl in *; lia.
Qed.

Lemma scanNumber_length s n r :
  scanNumber s = Some (n, r) → String.length r < String.length s.
Proof.
  unfold scanNumber. intros Hn.
  repeat first
    [ apply bind_Some in Hn as ([? ?] & ? & Hn)
    | case_match; try done ];
    simplify_eq;
    repeat match goal with
    | H : after _ _ = Some _ |- _ => apply after_length in H
    | H : takeDigits _ = _ |- _ => apply takeDigits_length in H
    end; simpl in *; lia.
Qed.

Lemma scan_fuel fuel :
  scanned scanValue fuel ∧ scanned scanElements fuel ∧ scanned scanMembers fuel.
Proof.
  induction fuel as [|fuel (IHv & IHe & IHm)]; [by split_and!|].
  assert (Hskip := skipSpace_length).
  split_and!.
  - (* scanValue *)
    intros d s j r Hs. cbn [scanValue] in Hs.
    destruct (afterPrefix "null" s) as [r0|] eqn:Hnull.
    { simplify_eq. apply afterPrefix_length in Hnull as Hlen; simpl in Hlen.
      split; [lia|]. intros [|f'] Hf; [lia|]. cbn [scanValue]. by rewrite Hnull. }
    destruct (afterPrefix "true" s) as [r0|] eqn:Htrue.
    { simplify_eq. apply afterPrefix_length in Htrue as Hlen; simpl in Hlen.
      split; [lia|]. intros [|f'] Hf; [lia|]. cbn [scanValue].
      by rewrite Hnull, Htrue. }
    destruct (afterPrefix "false" s) as [r0|] eqn:Hfalse.
    { simplify_eq. apply afterPrefix_length in Hfalse as Hlen; simpl in Hlen.
      split; [lia|]. intros [|f'] Hf; [lia|]. cbn [scanValue].
      by rewrite Hnull, Htrue, Hfalse. }
    destruct (after "034" s) as [r0|] eqn:Hquote.
    { apply bind_Some in Hs as ([b r'] & Hstr & ?). simplify_eq.
      apply after_length in Hquote as Hlen. apply scanString_length in Hstr as Hlen'.
      split; [lia|]. intros [|f'] Hf; [lia|]. cbn [scanValue].
      by rewrite Hnull, Htrue, Hfalse, Hquote, Hstr. }
    destruct (after "[" s) as [r0|] eqn:Harr.
    { apply after_length in Harr as Hlen.
      destruct (maxNestingDepth <? d + 1)%Z eqn:Hdepth; [done|].
      destruct (after "]" (skipSpace r0)) as [r1|] eqn:Hclose.
      - simplify_eq. apply after_length in Hclose as Hlen'.
        specialize (Hskip r0).
        split; [lia|]. intros [|f'] Hf; [lia|]. cbn [scanValue].
        by rewrite Hnull, Htrue, Hfalse, Hquote, Harr, Hdepth, Hclose.
      - apply bind_Some in Hs as ([l r'] & Hel & ?). simplify_eq.
        destruct (IHe _ _ _ _ Hel) as [Hlen' Hfuel]. specialize (Hskip r0).
        split; [lia|]. intros [|f'] Hf; [lia|]. cbn [scanValue].
        rewrite Hnull, Htrue, Hfalse, Hquote, Harr, Hdepth, Hclose.
        rewrite Hfuel; [done | lia]. }
    destruct (after "{" s) as [r0|] eqn:Hobj.
    { apply after_length in Hobj as Hlen.
      destruct (maxNestingDepth <? d + 1)%Z eqn:Hdepth; [done|].
      destruct (after "}" (skipSpace r0)) as [r1|] eqn:Hclose.
      - simplify_eq. apply after_length in Hclose as Hlen'.
        specialize (Hskip r0).
        split; [lia|]. intros [|f'] Hf; [lia|]. cbn [scanValue].
        by rewrite Hnull, Htrue, Hfalse, Hquote, Harr, Hobj, Hdepth, Hclose.
      - apply bind_Some in Hs as ([l r'] & Hel & ?). simplify_eq.
        destruct (IHm _ _ _ _ Hel) as [Hlen' Hfuel]. specialize (Hskip r0).
        split; [lia|]. intros [|f'] Hf; [lia|]. cbn [scanValue].
        rewrite Hnull, Htrue, Hfalse, Hquote, Harr, Hobj, Hdepth, Hclose.
        rewrite Hfuel; [done | lia]. }
    apply bind_Some in Hs as ([n r'] & Hnum & ?). simplify_eq.
    apply scanNumber_length in Hnum as Hlen.
    split; [lia|]. intros [|f'] Hf; [lia|]. cbn [scanValue].
    by rewrite Hnull, Htrue, Hfalse, Hquote, Harr, Hobj, Hnum.
  - (* scanElements *)
    intros d s l r Hs. cbn [scanElements] in Hs.
    apply bind_Some in Hs as ([v r0] & Hval & Hs).
    destruct (IHv _ _ _ _ Hval) as [Hlen Hfuel].
    destruct (after "," (skipSpace r0)) as [r1|] eqn:Hcomma.
    + apply bind_Some in Hs as ([l' r2] & Hel & ?). simplify_eq.
      destruct (IHe _ _ _ _ Hel) as [Hlen' Hfuel'].
      apply after_length in Hcomma as Hlen''.
      pose proof (Hskip r0). pose proof (Hskip r1).
      split; [lia|]. intros [|f'] Hf; [lia|]. cbn [scanElements].
      rewrite Hfuel by lia. simpl. rewrite Hcomma.
      rewrite Hfuel'; [done | lia].
    + destruct (after "]" (skipSpace r0)) as [r1|] eqn:Hclose; [|done].
      simplify_eq. apply after_length in Hclose as Hlen'. pose proof (Hskip r0).
      split; [lia|]. intros [|f'] Hf; [lia|]. cbn [scanElements].
      rewrite Hfuel by lia. simpl. by rewrite Hcomma, Hclose.
  - (* scanMembers *)
    intros d s kv r Hs. cbn [scanMembers] in Hs.
    apply bind_Some in Hs as (r0 & Hquote & Hs).
    apply bind_Some in Hs as ([b r1] & Hstr & Hs).
    apply bind_Some in Hs as (r2 & Hcolon & Hs).
    apply bind_Some in Hs as ([v r3] & Hval & Hs).
    apply after_length in Hquote as Hl0. apply scanString_length in Hstr as Hl1.
    apply after_length in Hcolon as Hl2.
    destruct (IHv _ _ _ _ Hval) as [Hl3 Hfuel].
    pose proof (Hskip r1). pose proof (Hskip r2). pose proof (Hskip r3).
    destruct (after "," (skipSpace r3)) as [r4|] eqn:Hcomma.
    + apply bind_Some in Hs as ([kv' r5] & Hmem & ?). simplify_eq.
      destruct (IHm _ _ _ _ Hmem) as [Hl5 Hfuel'].
      apply after_length in Hcomma as Hl4. pose proof (Hskip r4).
      split; [lia|]. intros [|f'] Hf; [lia|]. cbn [scanMembers].
      rewrite Hquote; simpl. rewrite Hstr; simpl. rewrite Hcolon; simpl.
      rewrite Hfuel by lia. simpl. rewrite Hcomma.
      rewrite Hfuel'; [done | lia].
    + destruct (after "}" (skipSpace r3)) as [r4|] eqn:Hclose; [|done].
      simplify_eq. apply after_length in Hclose as Hl4.
      split; [lia|]. intros [|f'] Hf; [lia|]. cbn [scanMembers].
      rewrite Hquote; simpl. rewrite Hstr; simpl. rewrite Hcolon; simpl.
      rewrite Hfuel by lia. simpl. by rewrite Hcomma, Hclose.
Qed.

(** The fuel [scan] gives is enough: a document that scans with some fuel
    scans, to the same value, with the fuel [scan] uses. *)
Lemma scanValue_fuel fuel d s j r :
  scanValue fuel d s = Some (j, r) →
  scanValue (S (String.length s)) d s = Some (j, r).
Proof.
  intros Hs. destruct (proj1 (scan_fuel fuel) _ _ _ _ Hs) as [_ Hfuel].
  apply Hfuel. lia.
Qed.
End scanner_facts.

(** ** The pipeline as a whole *)

Section pipeline_facts.
Variable config : Config.
Implicit Types (s : state) (l : label) (ls : list label) (c : conn).











End pipeline_facts.





(** ** Who writes what *)

Lemma step_writes (config : Config) (s : state) (l : label) (s' : state) :
  step config s l = Some s' →
  (writes l ≠ Some SharedLatest → latest s' = latest s)
  ∧ (writes l ≠ Some SharedClients → clients s' = clients s)
  ∧ (writes l ≠ Some SharedBroadcast → broadcast s' = broadcast s).
Proof. intros Hstep. step_inv Hstep; by split_and!. Qed.

(** X3: each step writes at most one of the shared variables, and only the
    one its critical section guards: [latest] changes only when the
    subscriber decodes a payload, the registry only in a dispatch cycle or
    when a connection is registered or removed by its handler, the queue
    only by the subscriber's send and the dispatcher's receive.  So over any
    run whose steps do not write a variable, that variable keeps its
    value. *)
Theorem shared_variables_have_one_writer (config : Config)
    (s : state) (ls : list label) (s' : state) :
  run config s ls = Some s' →
  ((∀ l, l ∈ ls → writes l ≠ Some SharedLatest) → latest s' = latest s)
  ∧ ((∀ l, l ∈ ls → writes l ≠ Some SharedClients) → clients s' = clients s)
  ∧ ((∀ l, l ∈ ls → writes l ≠ Some SharedBroadcast) →
     broadcast s' = broadcast s).
Proof.
  revert s. induction ls as [|l ls IH]; intros s Hrun; [by simplify_eq/=|].
  cbn [run] in Hrun. apply bind_Some in Hrun as (s1 & Hstep & Hrun).
  destruct (step_writes _ _ _ _ Hstep) as (Hl & Hc & Hb).
  destruct (IH _ Hrun) as (Hl' & Hc' & Hb').
  split_and!; intros Hall.
  - rewrite Hl', Hl; [done | apply Hall; left | intros ??; apply Hall; by right].
  - rewrite Hc', Hc; [done | apply Hall; left | intros ??; apply Hall; by right].
  - rewrite Hb', Hb; [done | apply Hall; left | intros ??; apply Hall; by right].
Qed.

(** X3 on connections that come and go while a payload waits to be decoded:
    the snapshot and the queue stay as they are. *)
Lemma shared_variables_have_one_writer_witness :
  ∃ s s',
    run sampleConfig (initialState emptyLatest)
      [SubscribeReply true; Message payloadNoPackets; Enqueue] = Some s
    ∧ run sampleConfig s [Connect connA; ClientMessage connA; Connect connB;
                          Disconnect connA; UpgradeFailed] = Some s'
    ∧ latest s' = latest s ∧ broadcast s' = broadcast s
    ∧ clients s' ≠ clients s.
Proof.
  destruct (run sampleConfig (initialState emptyLatest)
      [SubscribeReply true; Message payloadNoPackets; Enqueue])
    as [s|] eqn:Hrun; [|by vm_compute in Hrun].
  destruct (run sampleConfig s [Connect connA; ClientMessage connA; Connect connB;
                                Disconnect connA; UpgradeFailed])
    as [s'|] eqn:Hrun';
    [|vm_compute in Hrun; injection Hrun as <-; by vm_compute in Hrun'].
  destruct (shared_variables_have_one_writer _ _ _ _ Hrun') as (Hl & _ & Hb).
  exists s, s'. split; [reflexivity|]. split; [exact Hrun'|].
  split; [|split].
  - apply Hl. intros l Hin. repeat (apply elem_of_cons in Hin as [->|Hin]; [done|]).
    by apply not_elem_of_nil in Hin.
  - apply Hb. intros l Hin. repeat (apply elem_of_cons in Hin as [->|Hin]; [done|]).
    by apply not_elem_of_nil in Hin.
  - vm_compute in Hrun. injection Hrun as <-.
    vm_compute in Hrun'. injection Hrun' as <-.
    intros Heq. apply (f_equal (λ m : gmap conn bool, m !! connB)) in Heq.
    by vm_compute in Heq.
Defined.

(** ** The registry and the handlers *)





(** ** Progress at a full queue *)

(** X5: a full queue never stops the pipeline for good.  When the
    subscriber waits at its send because the queue is full, the dispatcher
    can always go on by itself, and after at most two of its steps (ending
    the cycle it is in, then receiving) the subscriber's send completes. *)
Theorem full_queue_is_released (config : Config) (s : state) (payload : string) :
  subscriberAt s = Sending payload →
  length (broadcast s) = broadcastCap →
  ∃ ls s' s'',
    length ls ≤ 2
    ∧ (∀ l, l ∈ ls → dispatcherLabel l = true)
    ∧ run config s ls = Some s'
    ∧ step config s' Enqueue = Some s''
    ∧ ∃ oldest, broadcast s ++ [payload] = oldest :: broadcast s''.
Proof.
  intros Hat Hfull. destruct s as [la cl br su di up re ef]; cbn in *; subst su.
  destruct br as [|oldest br]; [done|]. cbn in Hfull.
  assert (Henum : enumerates (elements (dom cl)) cl).
  { split; [apply NoDup_elements | apply list_to_set_elements_L]. }
  destruct di as [|msg].
  - eexists [Dequeue], _, _. split; [simpl; lia|].
    split; [by intros l ->%list_elem_of_singleton|].
    split; [reflexivity|]. split.
    + unfold step; cbn. rewrite send_space; [done | lia].
    + by exists oldest.
  - destruct (sendAll config msg (elements (dom cl)) (λ _, false) cl)
      as [cl' eff] eqn:Hsend.
    eexists [Dispatch (elements (dom cl)) (λ _, false); Dequeue], _, _.
    split; [simpl; lia|]. split.
    { intros l Hin. repeat (apply elem_of_cons in Hin as [->|Hin]; [done|]).
      by apply not_elem_of_nil in Hin. }
    split.
    { cbn [run]. unfold step at 1; cbn. rewrite decide_True by done.
      rewrite Hsend. cbn. reflexivity. }
    split.
    + unfold step; cbn. rewrite send_space; [done | lia].
    + by exists oldest.
Qed.

(** X5 on a queue of 100 payloads and a dispatcher in the middle of a
    cycle. *)
Lemma full_queue_is_released_witness :
  let s := mkState emptyLatest {[ connA := true ]} (replicate 100 "m")
             (Sending "new") (Dispatching "old") {[connA]} {[connA]} [] in
  subscriberAt s = Sending "new"
  ∧ length (broadcast s) = broadcastCap
  ∧ step sampleConfig s Enqueue = None
  ∧ ∃ ls s' s'',
      length ls ≤ 2
      ∧ run sampleConfig s ls = Some s'
      ∧ step sampleConfig s' Enqueue = Some s''.
Proof.
  intros s.
  destruct (full_queue_is_released sampleConfig s "new" eq_refl eq_refl)
    as (ls & s' & s'' & Hlen & _ & Hrun & Hstep & _).
  split; [reflexivity|]. split; [reflexivity|]. split; [by vm_compute|].
  by exists ls, s', s''.
Defined.

(** ** Debug mode *)

Section debug_facts.
Variables config config' : Config.








End debug_facts.





(** ** The order of the range over [clients] *)



(** ** The merge over a history of messages *)

Section history_facts.
Local Open Scope Z_scope.
Implicit Types (S : latestData.t) (M : trafficMessage.t).

Lemma foldl_int_add (c : Z) (cs : list Z) :
  is_int c → foldl int_add c cs = wrap (c + sumZ cs).
Proof.
  revert c. induction cs as [|x cs IH]; intros c Hc; cbn.
  { by rewrite Z.add_0_r, wrap_id. }
  rewrite IH by apply wrap_is_int. unfold int_add.
  rewrite wrap_wrap_add. f_equal. unfold sumZ. lia.
Qed.

Lemma mergeAll_app S ms1 ms2 :
  mergeAll S (ms1 ++ ms2) = mergeAll (mergeAll S ms1) ms2.
Proof. apply foldl_app. Qed.

Lemma mergeAll_timestamp S ms M :
  latestData.Timestamp (mergeAll S (ms ++ [M])) = trafficMessage.Timestamp M.
Proof. rewrite mergeAll_app. cbn. apply updateLatest_timestamp. Qed.

(** Messages that carry the snapshot's timestamp pile up on it. *)
Lemma mergeAll_same_timestamp S block :
  Forall (λ M, trafficMessage.Timestamp M = latestData.Timestamp S) block →
  mergeAll S block
  = {| latestData.Timestamp := latestData.Timestamp S;
       latestData.PacketCount :=
         foldl int_add (latestData.PacketCount S)
           (trafficMessage.PacketCount <$> block);
       latestData.Packets :=
         latestData.Packets S ++ concat (trafficMessage.Packets <$> block) |}.
Proof.
  revert S. induction block as [|M block IH]; intros S Hall.
  { cbn. rewrite app_nil_r. by destruct S. }
  apply Forall_cons in Hall as [HM Hall]. cbn [mergeAll foldl].
  fold (mergeAll (updateLatest S M) block).
  rewrite IH; rewrite (updateLatest_same _ _ HM); cbn; [|done].
  by rewrite <-app_assoc.
Qed.
End history_facts.

(** X8: the snapshot depends only on the messages since the timestamp last
    changed.  If a message [first] follows one with a different timestamp
    and is followed only by messages with its own timestamp, then, whatever
    the snapshot was at the start and whatever came before, the snapshot
    after all of them has that timestamp, the events of [first] and its
    followers in order, and as count the sum of their counts in [int]
    arithmetic (the exact sum when that is an [int]). *)
Theorem snapshot_is_last_block (S0 : latestData.t)
    (history : list trafficMessage.t) (prev first : trafficMessage.t)
    (rest : list trafficMessage.t) :
  trafficMessage.Timestamp prev ≠ trafficMessage.Timestamp first →
  Forall (λ M, trafficMessage.Timestamp M = trafficMessage.Timestamp first) rest →
  is_int (trafficMessage.PacketCount first) →
  mergeAll S0 (history ++ prev :: first :: rest)
  = {| latestData.Timestamp := trafficMessage.Timestamp first;
       latestData.PacketCount :=
         wrap (sumZ (trafficMessage.PacketCount <$> first :: rest));
       latestData.Packets :=
         concat (trafficMessage.Packets <$> first :: rest) |}
  ∧ (is_int (sumZ (trafficMessage.PacketCount <$> first :: rest)) →
     latestData.PacketCount (mergeAll S0 (history ++ prev :: first :: rest))
     = sumZ (trafficMessage.PacketCount <$> first :: rest)).
Proof.
  intros Hne Hall Hint.
  assert (Heq : mergeAll S0 (history ++ prev :: first :: rest)
    = {| latestData.Timestamp := trafficMessage.Timestamp first;
         latestData.PacketCount :=
           wrap (sumZ (trafficMessage.PacketCount <$> first :: rest));
         latestData.Packets :=
           concat (trafficMessage.Packets <$> first :: rest) |}).
  { replace (history ++ prev :: first :: rest)
      with ((history ++ [prev]) ++ first :: rest) by by rewrite <-app_assoc.
    rewrite mergeAll_app. cbn [mergeAll foldl].
    fold (mergeAll (updateLatest (mergeAll S0 (history ++ [prev])) first) rest).
    rewrite updateLatest_other by (by rewrite mergeAll_timestamp).
    rewrite mergeAll_same_timestamp by done. cbn.
    by rewrite foldl_int_add. }
  split; [exact Heq|]. intros Hsum. rewrite Heq. cbn. by apply wrap_id.
Qed.

(** X8 on a history of five messages, the last three at timestamp 7. *)
Lemma snapshot_is_last_block_witness :
  mergeAll (latestData.mk 3 10 [VNil])
    [trafficMessage.mk 1 5 [VBool true]; trafficMessage.mk 4 6 [];
     trafficMessage.mk 2 7 [VString "a"; VString "b"];
     trafficMessage.mk 1 7 [VString "c"]; trafficMessage.mk 0 7 []]
  = latestData.mk 7 3 [VString "a"; VString "b"; VString "c"].
Proof.
  destruct (snapshot_is_last_block (latestData.mk 3 10 [VNil])
              [trafficMessage.mk 1 5 [VBool true]]
              (trafficMessage.mk 4 6 [])
              (trafficMessage.mk 2 7 [VString "a"; VString "b"])
              [trafficMessage.mk 1 7 [VString "c"]; trafficMessage.mk 0 7 []])
    as [Heq _].
  - cbn. lia.
  - by repeat constructor.
  - by vm_compute.
  - exact Heq.
Defined.

(** ** Payloads without the fields *)




(** ** The configuration *)

Lemma getEnv_default env key defaultValue :
  Getenv env key = EmptyString → getEnv env key defaultValue = defaultValue.
Proof. intros Hk. unfold getEnv. by rewrite Hk, decide_False by naive_solver. Qed.

Lemma getEnv_set env key defaultValue :
  Getenv env key ≠ EmptyString → getEnv env key defaultValue = Getenv env key.
Proof. intros Hk. unfold getEnv. by rewrite decide_True. Qed.

Lemma getEnv_nonempty env key defaultValue :
  defaultValue ≠ EmptyString → getEnv env key defaultValue ≠ EmptyString.
Proof. intros Hd. unfold getEnv. by case_decide. Qed.

Lemma Getenv_insert_empty env k key :
  Getenv (<[k := EmptyString]> env) key = Getenv (delete k env) key.
Proof.
  unfold Getenv. destruct (decide (k = key)) as [->|Hne].
  - by rewrite lookup_insert_eq, lookup_delete_eq.
  - by rewrite lookup_insert_ne, lookup_delete_ne.
Qed.

(** X10: whatever the environment, [initConfig] yields a Redis address, a
    server port and a channel name that are not empty, and database 0.  A
    variable that is set to the empty string counts as not set; the
    configuration depends on the four variables DEBUG, REDIS_ADDR,
    SERVER_PORT and REDIS_CHANNEL only; and debug mode is on exactly when
    DEBUG is [true] or [1]. *)
Theorem initConfig_defaults :
  (∀ env,
     RedisAddr (initConfig env) ≠ EmptyString
     ∧ ServerPort (initConfig env) ≠ EmptyString
     ∧ RedisChannel (initConfig env) ≠ EmptyString
     ∧ RedisDB (initConfig env) = 0%Z)
  ∧ (∀ env k, initConfig (<[k := EmptyString]> env) = initConfig (delete k env))
  ∧ (∀ env env',
       (∀ k, k ∈ ["DEBUG"; "REDIS_ADDR"; "SERVER_PORT"; "REDIS_CHANNEL"]%string →
             env !! k = env' !! k) →
       initConfig env = initConfig env')
  ∧ (∀ env, Debug (initConfig env) = true
            ↔ env !! "DEBUG"%string = Some "true"%string
              ∨ env !! "DEBUG"%string = Some "1"%string)
  ∧ (∀ env key defaultValue,
       (env !! key = None ∨ env !! key = Some EmptyString →
        getEnv env key defaultValue = defaultValue)
       ∧ (∀ v, env !! key = Some v → v ≠ EmptyString →
               getEnv env key defaultValue = v)).
Proof.
  split_and!.
  - intros env. unfold initConfig; cbn. split_and!; try by apply getEnv_nonempty.
    done.
  - intros env k. unfold initConfig, getEnv. by rewrite !Getenv_insert_empty.
  - intros env env' Hsame. unfold initConfig, getEnv, Getenv.
    rewrite !(Hsame "DEBUG"%string), !(Hsame "REDIS_ADDR"%string),
      !(Hsame "SERVER_PORT"%string), !(Hsame "REDIS_CHANNEL"%string);
      [done|set_solver..].
  - intros env. unfold initConfig, Getenv; cbn.
    rewrite orb_true_iff, !bool_decide_eq_true.
    destruct (env !! "DEBUG"%string) as [v|]; cbn; naive_solver.
  - intros env key defaultValue. split.
    + intros Hk. apply getEnv_default. unfold Getenv. by destruct Hk as [->| ->].
    + intros v Hk Hv. rewrite getEnv_set; unfold Getenv; by rewrite Hk.
Qed.

(** X10 on an environment that sets the channel, sets the port to the empty
    string, and sets DEBUG to [TRUE]. *)
Lemma initConfig_defaults_witness :
  let env : gmap string string :=
    {[ "REDIS_CHANNEL" := "test_channel"; "SERVER_PORT" := EmptyString;
       "DEBUG" := "TRUE" ]}%string in
  initConfig env
  = {| Debug := false; RedisAddr := "ejfat-6.jlab.org:6379"; RedisDB := 0;
       ServerPort := ":8080"; RedisChannel := "test_channel" |}
  ∧ RedisAddr (initConfig env) ≠ EmptyString
  ∧ initConfig ∅ = sampleConfig.
Proof.
  intros env. split; [by vm_compute|]. split; [|by vm_compute].
  apply (proj1 initConfig_defaults env).
Defined.

(** ** The index and the outcome of startup reconstruction *)

Lemma commandsOf_sent cmd eff :
  commandsOf (Sent cmd :: eff) = cmd :: commandsOf eff.
Proof. done. Qed.

(** X11: [createIndexIfNotExists] asks for the index first and sends
    [FT.CREATE] only if that request fails; it returns an error exactly when
    both requests fail, and the error is the one of [FT.CREATE]. *)
Theorem createIndex_only_if_missing (config : Config) (rdb : redisReplies) :
  (∃ rest, commandsOf (createIndexIfNotExists config rdb).1 = FT_INFO :: rest)
  ∧ (FT_CREATE ∈ commandsOf (createIndexIfNotExists config rdb).1
     ↔ ∃ e, FTInfo rdb = Err e)
  ∧ (∀ e, (createIndexIfNotExists config rdb).2 = Some e
          ↔ (∃ e', FTInfo rdb = Err e') ∧ FTCreate rdb = Err e)
  ∧ ((createIndexIfNotExists config rdb).2 = None
     ↔ FTInfo rdb = Ok () ∨ FTCreate rdb = Ok ()).
Proof.
  unfold createIndexIfNotExists.
  destruct rdb as [[[]|e1] [[]|e2] agg search]; cbn [FTInfo FTCreate fst snd];
    rewrite ?commandsOf_sent, ?commandsOf_logged;
    (split; [by eexists|]);
    rewrite ?elem_of_cons, ?elem_of_nil; naive_solver.
Qed.

Lemma is_intb_is_int z : is_intb z = true → is_int z.
Proof.
  unfold is_intb, is_int. intros [H1 H2]%andb_prop.
  apply Z.leb_le in H1, H2. done.
Qed.

(** A timestamp that [Sscanf] has scanned is an [int]. *)
Lemma Sscanf_d_is_int str v : Fmt.Sscanf_d str = Some v → is_int v.
Proof.
  unfold Fmt.Sscanf_d. intros Hs.
  apply bind_Some in Hs as (s & _ & Hs).
  repeat (case_match; try done); simplify_eq; by apply is_intb_is_int.
Qed.

(** Case analysis on the replies that [initializeLatestData] looks at. *)
Ltac startup_cases config rdb :=
  unfold initializeLatestData, createIndexIfNotExists, fallback,
    initializeEmptyLatest, debugLog, infoLog, errorLog;
  destruct rdb as [[[]|?] [[]|?] [[|?row ?rows]|?] ?search];
  destruct (Debug config);
  cbn [FTInfo FTCreate FTAggregate FTSearch];
  try match goal with
      | |- context [rowFields ?r !! ?k] =>
          destruct (rowFields r !! k) as [?v|] eqn:?Hfield
      end;
  cbn; repeat case_match; cbn.

Lemma startup_panics (config : Config) (rdb : redisReplies) :
  (initializeLatestData config rdb).2 = Panics
  ↔ (FTInfo rdb = Ok () ∨ FTCreate rdb = Ok ())
    ∧ ∃ row rows v,
        FTAggregate rdb = Ok (row :: rows)
        ∧ rowFields row !! "max_timestamp"%string = Some v
        ∧ v ≠ VNil ∧ isString v = false.
Proof.
  startup_cases config rdb.
  all: split;
    [ intros Hp; try discriminate Hp;
      (split; [by auto|]); eexists _, _, _; by split_and!
    | intros [Hidx (row0 & rows0 & v0 & Hagg & Hv & Hnil & Hstr)];
      try done; simplify_eq; try done; try (by destruct Hidx) ].
Qed.

Lemma startup_returns (config : Config) (rdb : redisReplies) (l : latestData.t) :
  (initializeLatestData config rdb).2 = Returns l →
  countConsistent l
  ∧ is_int (latestData.Timestamp l)
  ∧ (l = emptyLatest
     ∨ ∃ timestamp docs,
         startupSuccess rdb timestamp docs
         ∧ l = {| latestData.Timestamp := timestamp;
                  latestData.PacketCount := Z.of_nat (length docs);
                  latestData.Packets := packetData <$> docs |}).
Proof.
  assert (Hempty : is_int (latestData.Timestamp emptyLatest)) by by vm_compute.
  revert l. startup_cases config rdb; intros l0 Hl; simplify_eq;
    try (split_and!; [done | done | by left]).
  all: split_and!;
    [ unfold countConsistent, len; cbn; by rewrite length_fmap
    | by eapply Sscanf_d_is_int
    | right; eexists _, _; split; [|done];
      split; [by auto|]; eexists _, _, _; by split_and! ].
Qed.

Lemma startup_search (config : Config) (rdb : redisReplies) :
  FT_SEARCH ∈ commandsOf (initializeLatestData config rdb).1
  ↔ (FTInfo rdb = Ok () ∨ FTCreate rdb = Ok ())
    ∧ ∃ row rows str timestamp,
        FTAggregate rdb = Ok (row :: rows)
        ∧ rowFields row !! "max_timestamp"%string = Some (VString str)
        ∧ Fmt.Sscanf_d str = Some timestamp.
Proof.
  startup_cases config rdb; unfold commandsOf; cbn;
    rewrite ?elem_of_cons, ?elem_of_nil.
  all: split;
    [ intros Hin; try (by repeat destruct Hin as [?|Hin]);
      (split; [by auto|]); eexists _, _, _, _; by split_and!
    | intros [Hidx (row0 & rows0 & str0 & t0 & Hagg & Hv & Hsc)];
      simplify_eq; try (by destruct Hidx); by auto 10 ].
Qed.

(** X12: [initializeLatestData] ends in one of three ways.  It panics
    exactly when the index step succeeds and the first row of the
    aggregation carries a [max_timestamp] that is neither nil nor a string
    (the type assertion fails).  Otherwise it returns, having stored either
    the empty snapshot or, when every step succeeded, the snapshot of the
    documents found; the snapshot stored always has a count equal to the
    number of its events and a timestamp in the range of [int].  [FT.SEARCH]
    is sent exactly when a timestamp has been scanned. *)
Theorem startup_outcomes (config : Config) (rdb : redisReplies) :
  ((initializeLatestData config rdb).2 = Panics
   ↔ (FTInfo rdb = Ok () ∨ FTCreate rdb = Ok ())
     ∧ ∃ row rows v,
         FTAggregate rdb = Ok (row :: rows)
         ∧ rowFields row !! "max_timestamp"%string = Some v
         ∧ v ≠ VNil ∧ isString v = false)
  ∧ (∀ l, (initializeLatestData config rdb).2 = Returns l →
          countConsistent l
          ∧ is_int (latestData.Timestamp l)
          ∧ (l = emptyLatest
             ∨ ∃ timestamp docs,
                 startupSuccess rdb timestamp docs
                 ∧ l = {| latestData.Timestamp := timestamp;
                          latestData.PacketCount := Z.of_nat (length docs);
                          latestData.Packets := packetData <$> docs |}))
  ∧ (FT_SEARCH ∈ commandsOf (initializeLatestData config rdb).1
     ↔ (FTInfo rdb = Ok () ∨ FTCreate rdb = Ok ())
       ∧ ∃ row rows str timestamp,
           FTAggregate rdb = Ok (row :: rows)
           ∧ rowFields row !! "max_timestamp"%string = Some (VString str)
           ∧ Fmt.Sscanf_d str = Some timestamp).
Proof.
  split; [apply startup_panics|]. split; [apply startup_returns|].
  apply startup_search.
Qed.

(** ** Connections that join late *)

Section joiner_facts.
Variable config : Config.





End joiner_facts.


